(** * User registration and account activation

    A shallow embedding of [src/user/UserService.js] (the registration
    service: [generateToken], [save], [findByEmail]) together with the
    collaborators it calls, and the properties of the specification
    stated over it.

    JavaScript objects are finite maps from property names to values,
    the [users] table is a list of rows in insertion order, and the
    asynchronous functions are computations over an explicit world:
    [await] sequences them, a rejected promise aborts the rest of the
    function and leaves the effects already performed in place. *)

From Stdlib Require Import Strings.String Strings.Ascii Strings.Byte List ZArith Lia Bool.
From stdpp Require Import base option list gmap strings.
Import ListNotations.

Local Open Scope string_scope.

#[local] Set Warnings "-register-all".

(** ** JavaScript values *)

(** The values a parsed JSON body can hold, plus [undefined] for a
    property that is absent.  Numbers are kept as integers: no operation
    of the service computes with them. *)
Inductive JsValue : Type :=
| JUndefined
| JNull
| JBool (b : bool)
| JNum (n : Z)
| JStr (s : string)
| JArr (items : list JsValue)
| JObj (props : list (string * JsValue)).

(** A plain object: [{ k1: v1, ... }]. *)
Abbreviation JsObject := (gmap string JsValue).

(** Property read [o.k]: [undefined] when the object has no such key. *)
Definition prop (o : JsObject) (k : string) : JsValue :=
  default JUndefined (o !! k).

(** ** Buffers, hexadecimal text and [String.prototype.substring] *)

Definition hex_digit (n : nat) : ascii :=
  match n with
  | 0 => "0" | 1 => "1" | 2 => "2" | 3 => "3"
  | 4 => "4" | 5 => "5" | 6 => "6" | 7 => "7"
  | 8 => "8" | 9 => "9" | 10 => "a" | 11 => "b"
  | 12 => "c" | 13 => "d" | 14 => "e" | _ => "f"
  end%char.

(** [buf.toString('hex')]: two lowercase digits per byte, high nibble
    first. *)
Fixpoint toString_hex (buf : list byte) : list ascii :=
  match buf with
  | [] => []
  | b :: rest =>
      hex_digit (Byte.to_nat b / 16) :: hex_digit (Byte.to_nat b mod 16)
        :: toString_hex rest
  end.

(** [s.substring(a, b)] on the characters of [s]: both indices are
    clamped to the length and swapped when [a > b]. *)
Definition substring (s : list ascii) (a b : nat) : list ascii :=
  let a' := Nat.min a (length s) in
  let b' := Nat.min b (length s) in
  let lo := Nat.min a' b' in
  let hi := Nat.max a' b' in
  take (hi - lo) (drop lo s).

Definition is_lower_hex (c : ascii) : bool :=
  let n := nat_of_ascii c in
  (Nat.leb 48 n && Nat.leb n 57) || (Nat.leb 97 n && Nat.leb n 102).

(** The lengths [generateToken] is modelled for.  Beyond them the real
    call throws instead of returning: [crypto.randomBytes] refuses sizes
    above 2^31 - 1, and the hexadecimal text of [n] bytes has [2 * n]
    characters, which have to fit in the longest string the engine
    allows (2^28 - 16 characters on the engines with the lowest
    limit). *)
Definition supported_length (n : nat) : Prop :=
  (Z.of_nat n <= 134217720)%Z.

(** ** The world the service runs in *)

(** Modelled from the spec: the model definition [~/user/User] is not
    part of the sources.  A row of the [users] table, with the columns
    section 3 of the specification gives. *)
Module Row.
Record t : Type := mk {
  id : nat;
  username : JsValue;
  email : JsValue;
  password : JsValue;
  inactive : bool;
  activationToken : option string
}.
End Row.

(** Calls made to the collaborators, in the order they are made. *)
Inductive Call : Type :=
| Call_User_create (values : JsObject)
| Call_sendAccountActivation (email token : JsValue).

Record World : Type := mkWorld {
  table : list Row.t;      (* the users table, oldest row first *)
  next_id : nat;           (* next surrogate key *)
  cursor : nat;            (* position in the entropy stream *)
  journal : list Call      (* collaborator calls so far *)
}.

Definition initial : World :=
  {| table := []; next_id := 1; cursor := 0; journal := [] |}.

(** What a rejected promise carries. *)
Inductive Failure : Type :=
| IllegalArguments          (* bcryptjs: the value to hash is not a string *)
| UniqueConstraintError     (* the store refused a duplicate email *)
| MailTransportError.       (* the mail transport refused the message *)

(** An [async] function: it transforms the world and either resolves
    with a value or rejects.  The world of a rejection is the world at
    the point of rejection: nothing is undone implicitly. *)
Definition Async (A : Type) : Type := World -> World * (Failure + A).

Definition resolve {A} (a : A) : Async A := fun w => (w, inr a).
Definition reject {A} (e : Failure) : Async A := fun w => (w, inl e).

(** [const x = await c; k x] *)
Definition await {A B} (c : Async A) (k : A -> Async B) : Async B :=
  fun w =>
    match c w with
    | (w', inr a) => k a w'
    | (w', inl e) => (w', inl e)
    end.

Declare Scope async_scope.
Delimit Scope async_scope with async.
Notation "x <- c ;; k" := (await c (fun x => k))
  (at level 100, c at next level, right associativity) : async_scope.
Notation "c ;;; k" := (await c (fun _ => k))
  (at level 100, right associativity) : async_scope.
Local Open Scope async_scope.

Definition record_call (c : Call) (w : World) : World :=
  {| table := table w; next_id := next_id w; cursor := cursor w;
     journal := journal w ++ [c] |}.

(** The rows whose email column holds the string [e]. *)
Definition has_email (e : JsValue) (u : Row.t) : bool :=
  match e, Row.email u with
  | JStr a, JStr b => String.eqb a b
  | _, _ => false
  end.

(** ** The store *)

(** Modelled from the spec: the model definition [~/user/User] is not
    part of the sources.  The row [User.create(values)] builds: the
    columns named in [values] are taken from it, [inactive] defaults to
    [true] and [activationToken] to no token when [values] does not
    supply them. *)
Definition row_of_values (key : nat) (values : JsObject) : Row.t :=
  {| Row.id := key;
     Row.username := prop values "username";
     Row.email := prop values "email";
     Row.password := prop values "password";
     Row.inactive :=
       match values !! "inactive" with
       | Some (JBool b) => b
       | _ => true
       end;
     Row.activationToken :=
       match values !! "activationToken" with
       | Some (JStr t) => Some t
       | _ => None
       end |}.

(** Modelled from the spec: the model definition [~/user/User] is not
    part of the sources.  [User.create(values)]: the table enforces
    email uniqueness at persistence time and assigns the surrogate
    identifier. *)
Definition User_create (values : JsObject) : Async Row.t :=
  fun w =>
    let w1 := record_call (Call_User_create values) w in
    if existsb (has_email (prop values "email")) (table w1) then
      (w1, inl UniqueConstraintError)
    else
      let row := row_of_values (next_id w1) values in
      ({| table := table w1 ++ [row]; next_id := S (next_id w1);
          cursor := cursor w1; journal := journal w1 |}, inr row).

(** Modelled from the spec: the model definition [~/user/User] is not
    part of the sources.  [User.findOne({ where: { email } })]: the
    oldest row with that email, if any. *)
Definition User_findOne_email (e : string) : Async (option Row.t) :=
  fun w => (w, inr (List.find (has_email (JStr e)) (table w))).

Section Service.

(** The operating system's entropy source, read sequentially. *)
Variable entropy : nat -> byte.

(** bcrypt proper (bcryptjs): password, cost factor and 16-byte salt
    to the 60-character hash string. *)
Variable bcrypt : string -> nat -> list byte -> string.

(** Whether the outbound mail transport accepts the message handed to
    it in a given world ([~/email/EmailService] and the transport
    behind it are not part of the sources). *)
Variable transport : World -> JsValue -> JsValue -> bool.

(** [crypto.randomBytes(size)].  The real call throws for sizes above
    2^31 - 1; the service only ever asks for 16 bytes, and what is
    proved at other sizes is stated for [supported_length] only. *)
Definition crypto_randomBytes (size : nat) : Async (list byte) :=
  fun w =>
    ({| table := table w; next_id := next_id w;
        cursor := cursor w + size; journal := journal w |},
     inr (map entropy (seq (cursor w) size))).

(** [bcrypt.hash(s, rounds)]: rejects unless [s] is a string, otherwise
    draws a fresh 16-byte salt and hashes. *)
Definition bcrypt_hash (s : JsValue) (rounds : nat) : Async string :=
  match s with
  | JStr p =>
      salt <- crypto_randomBytes 16 ;;
      resolve (bcrypt p rounds salt)
  | _ => reject IllegalArguments
  end.

(** [EmailService.sendAccountActivation(email, token)]: one attempt. *)
Definition EmailService_sendAccountActivation (email token : JsValue)
  : Async unit :=
  fun w =>
    let w1 := record_call (Call_sendAccountActivation email token) w in
    if transport w email token then (w1, inr tt)
    else (w1, inl MailTransportError).

(** *** [UserService.js] *)

(** [generateToken], lines 6-8. *)
Definition generateToken (length : nat) : Async string :=
  buf <- crypto_randomBytes length ;;
  resolve (string_of_list_ascii (substring (toString_hex buf) 0 length)).

(** The object literal of lines 13-18. *)
Definition user_literal (username email : JsValue) (hash token : string)
  : JsObject :=
  <["activationToken" := JStr token]>
    (<["password" := JStr hash]>
       (<["email" := email]>
          (<["username" := username]> ∅))).

(** [save], lines 10-21. *)
Definition save (body : JsObject) : Async unit :=
  let username := prop body "username" in
  let email := prop body "email" in
  let password := prop body "password" in
  hash <- bcrypt_hash password 10 ;;
  token <- generateToken 16 ;;
  let user := user_literal username email hash token in
  User_create user ;;;
  EmailService_sendAccountActivation email (prop user "activationToken").

(** [findByEmail], lines 23-25. *)
Definition findByEmail (email : string) : Async (option Row.t) :=
  User_findOne_email email.

End Service.

(** ** Validation of the creation payload *)

Inductive MessageKey : Type :=
| username_null | username_size
| email_null | email_invalid | email_inuse
| password_null | password_size | password_pattern.

(** The base-locale catalog, as the test-suite spells it. *)
Definition en (k : MessageKey) : string :=
  match k with
  | username_null => "Username cannot be null"
  | username_size => "Must have minimum 4 and max 32 characters"
  | email_null => "Email cannot be null"
  | email_invalid => "Email is invalid"
  | email_inuse => "Email is in use"
  | password_null => "Password cannot be null"
  | password_size => "Password must be at least 6 characters"
  | password_pattern =>
      "Password must have at least 1 uppercase, 1 lowercase letter and 1 number"
  end.

Definition non_null (v : JsValue) : bool :=
  match v with
  | JUndefined | JNull => false
  | _ => true
  end.

Definition on_text (p : string -> bool) (v : JsValue) : bool :=
  match v with
  | JStr s => p s
  | _ => false
  end.

Definition between (lo hi : nat) (c : ascii) : bool :=
  Nat.leb lo (nat_of_ascii c) && Nat.leb (nat_of_ascii c) hi.

Definition has_char (p : ascii -> bool) (s : string) : bool :=
  existsb p (list_ascii_of_string s).

Definition strong_password (s : string) : bool :=
  has_char (between 97 122) s && has_char (between 65 90) s
    && has_char (between 48 57) s.

Record Rule : Type := mkRule {
  rule_field : string;
  rule_key : MessageKey;
  rule_holds : World -> JsValue -> bool
}.

Section Validation.

(** Address syntax is decided by the validation library. *)
Variable isEmail : string -> bool.

(** Modelled from the spec: the request validators of the router are
    not part of the sources.  This is the rule table of section 4.3,
    in the order it declares the rules.  The duplicate check goes
    through [findByEmail]. *)
Definition rules : list Rule :=
  [ mkRule "username" username_null (fun _ v => non_null v);
    mkRule "username" username_size
      (fun _ v => on_text (fun s => Nat.leb 4 (String.length s)
                                   && Nat.leb (String.length s) 32) v);
    mkRule "email" email_null (fun _ v => non_null v);
    mkRule "email" email_invalid (fun _ v => on_text isEmail v);
    mkRule "email" email_inuse
      (fun w v => on_text (fun s =>
         match snd (findByEmail s w) with
         | inr (Some _) => false
         | _ => true
         end) v);
    mkRule "password" password_null (fun _ v => non_null v);
    mkRule "password" password_size
      (fun _ v => on_text (fun s => Nat.leb 6 (String.length s)) v);
    mkRule "password" password_pattern
      (fun _ v => on_text strong_password v) ].

Definition violated (w : World) (body : JsObject) (r : Rule) : bool :=
  negb (rule_holds r w (prop body (rule_field r))).

(** [errors[field] = message] on an order-preserving mapping that
    reports, for each field, the first rule it violates. *)
Definition report (errors : list (string * MessageKey)) (r : Rule)
  : list (string * MessageKey) :=
  if existsb (String.eqb (rule_field r)) (map fst errors) then errors
  else errors ++ [(rule_field r, rule_key r)].

(** Modelled from the spec: every rule is evaluated, none stops the
    others, and the violations are merged in declaration order. *)
Definition collect (w : World) (body : JsObject) (rs : list Rule)
  : list (string * MessageKey) :=
  fold_left report (List.filter (violated w body) rs) [].

Definition validationErrors (w : World) (body : JsObject)
  : list (string * MessageKey) :=
  collect w body rules.

(** A field is in violation when some rule declared for it fails. *)
Definition field_violated (w : World) (body : JsObject) (f : string)
  : bool :=
  existsb (fun r => String.eqb f (rule_field r) && violated w body r) rules.

End Validation.

(** ** Activation *)

Record Response : Type := mkResponse {
  status : nat;
  message : string
}.

Definition account_activated : Response :=
  {| status := 200; message := "Account is activated" |}.

Definition invalid_token : Response :=
  {| status := 400;
     message := "This account is either active or the token is invalid" |}.

(** The row after activation: token cleared, [inactive] false. *)
Definition activated (u : Row.t) : Row.t :=
  {| Row.id := Row.id u; Row.username := Row.username u;
     Row.email := Row.email u; Row.password := Row.password u;
     Row.inactive := false; Row.activationToken := None |}.

Definition holds_token (token : string) (u : Row.t) : Prop :=
  Row.activationToken u = Some token.

#[local] Instance holds_token_dec token u : Decision (holds_token token u).
Proof. unfold holds_token. apply _. Defined.

(** Modelled from the spec: the activation handler
    ([POST /api/1.0/users/token/:token]) is not part of the sources.
    Section 4.4: look the user up by token; if found, clear the token,
    set [inactive] to false, persist and answer success; otherwise
    change nothing and answer with the generic error.  Only the status
    and the message of the response are modelled. *)
Definition activate (token : string) (w : World) : World * Response :=
  match list_find (holds_token token) (table w) with
  | Some (i, u) =>
      ({| table := <[i := activated u]> (table w); next_id := next_id w;
          cursor := cursor w; journal := journal w |}, account_activated)
  | None => (w, invalid_token)
  end.

(** ** Runs of the system *)

(** What one step added to the table and to the journal. *)
Definition new_rows (w w' : World) : list Row.t :=
  drop (length (table w)) (table w').

Definition new_calls (w w' : World) : list Call :=
  drop (length (journal w)) (journal w').

(** The two states of a user's lifecycle. *)
Definition no_token (o : option string) : bool :=
  match o with
  | None => true
  | Some t => String.eqb t ""
  end.

Definition is_pending (u : Row.t) : bool :=
  Row.inactive u && negb (no_token (Row.activationToken u)).

Definition is_active (u : Row.t) : bool :=
  negb (Row.inactive u) && no_token (Row.activationToken u).

(** Every user is in exactly one of the two states. *)
Definition lifecycle_ok (w : World) : Prop :=
  Forall (fun u => xorb (is_pending u) (is_active u) = true) (table w).

Section Runs.

Variable entropy : nat -> byte.
Variable bcrypt : string -> nat -> list byte -> string.
Variable transport : World -> JsValue -> JsValue -> bool.

(** The bytes the next [n]-byte read of the entropy source returns. *)
Definition drawn (from n : nat) : list byte := map entropy (seq from n).

(** What a registration that starts in [w] with a string password
    reads from the entropy source: first the salt of the hash, then
    the bytes of the token. *)
Definition salt_of (w : World) : list byte := drawn (cursor w) 16.

Definition token_of (w : World) : string :=
  string_of_list_ascii
    (substring (toString_hex (drawn (cursor w + 16) 16)) 0 16).

(** The worlds the two operations can produce from the empty store:
    any number of registrations, with any body and whatever their
    outcome, and activation attempts with any token. *)
Inductive reachable : World -> Prop :=
| reachable_initial : reachable initial
| reachable_save body w :
    reachable w -> reachable (fst (save entropy bcrypt transport body w))
| reachable_activate token w :
    reachable w -> reachable (fst (activate token w)).

End Runs.

(** ** Fixtures *)

(** [validUser] of the test-suite. *)
Definition validUser : JsObject :=
  <["password" := JStr "Pass1234"]>
    (<["email" := JStr "user1@example.com"]>
       (<["username" := JStr "user1"]> ∅)).

(** A second valid payload, with another address. *)
Definition otherUser : JsObject :=
  <["password" := JStr "Pass5678"]>
    (<["email" := JStr "user2@example.com"]>
       (<["username" := JStr "user2"]> ∅)).

(** A payload that tries to set columns of its own. *)
Definition tamperingUser : JsObject :=
  <["id" := JNum 7]>
    (<["activationToken" := JStr "chosen-by-client"]>
       (<["inactive" := JBool false]> validUser)).

(** Environments to run the examples in.  [sample_bcrypt] only has the
    shape of a bcrypt hash string; it stands in for the library. *)
Definition counting_entropy (n : nat) : byte :=
  default x00 (Byte.of_nat (n mod 256)).

Definition constant_entropy (n : nat) : byte := x2a.

Definition sample_bcrypt (p : string) (cost : nat) (salt : list byte)
  : string :=
  "$2a$10$" ++ string_of_list_ascii (toString_hex salt) ++ "." ++ p.

Definition transport_up (w : World) (email token : JsValue) : bool := true.

Definition transport_down (w : World) (email token : JsValue) : bool := false.

Definition sample_isEmail (s : string) : bool :=
  existsb (Ascii.eqb "@") (list_ascii_of_string s).

(** The store after one successful registration of [validUser], the row
    it then holds, and the object that was handed to [User.create]. *)
Definition registered : World :=
  fst (save counting_entropy sample_bcrypt transport_up validUser initial).

Definition user1_row : Row.t :=
  {| Row.id := 1;
     Row.username := JStr "user1";
     Row.email := JStr "user1@example.com";
     Row.password := JStr "$2a$10$000102030405060708090a0b0c0d0e0f.Pass1234";
     Row.inactive := true;
     Row.activationToken := Some "1011121314151617" |}.

Definition user1_values : JsObject :=
  user_literal (JStr "user1") (JStr "user1@example.com")
    "$2a$10$000102030405060708090a0b0c0d0e0f.Pass1234" "1011121314151617".

(** The store after two registrations during which the entropy source
    kept returning the same byte. *)
Definition collided : World :=
  fst (save constant_entropy sample_bcrypt transport_up otherUser
         (fst (save constant_entropy sample_bcrypt transport_up validUser
                 initial))).

(** No two rows hold the same string in their email column. *)
Definition emails_unique (rows : list Row.t) : Prop :=
  forall i j u v e,
    rows !! i = Some u -> rows !! j = Some v ->
    Row.email u = JStr e -> Row.email v = JStr e -> i = j.

(** An entropy source that agrees with [counting_entropy] on the first
    eight bytes only. *)
Definition short_entropy (n : nat) : byte :=
  if Nat.ltb n 8 then counting_entropy n else xff.

(** ** The SMTP server of the test-suite *)

(** What the test-suite remembers of the mail traffic
    ([lastMail], [simulateSmtpFailure]); [None] is [undefined]. *)
Record MailProbe : Type := mkMailProbe {
  lastMail : option string;
  simulateSmtpFailure : bool
}.

(** [mailBody += data.toString()].  [mailBody] is declared without a
    value, so the first addition appends to the text of [undefined]. *)
Definition add_chunk (mailBody : option string) (data : string)
  : option string :=
  Some (match mailBody with
        | None => "undefined"
        | Some body => body
        end ++ data).

(** [onData]: the ['data'] events are folded into [mailBody]; on
    ['end'] the message is refused with response code 533 when a failure
    is simulated, and recorded in [lastMail] otherwise. *)
Definition onData (chunks : list string) (probe : MailProbe)
  : MailProbe * option nat :=
  let mailBody := fold_left add_chunk chunks None in
  if simulateSmtpFailure probe then (probe, Some 533)
  else ({| lastMail := mailBody;
           simulateSmtpFailure := simulateSmtpFailure probe |}, None).

(** Closes a goal that holds by running the model. *)
Ltac run := vm_compute; repeat constructor.

(** * Properties *)

(** ** Tokens *)

Lemma hex_digit_lower n : is_lower_hex (hex_digit n) = true.
Proof.
  do 15 (destruct n as [|n]; [reflexivity|]). reflexivity.
Qed.

Lemma toString_hex_length buf : length (toString_hex buf) = 2 * length buf.
Proof. induction buf as [|b buf IH]; simpl; [reflexivity | lia]. Qed.

Lemma toString_hex_lower buf :
  Forall (fun c => is_lower_hex c = true) (toString_hex buf).
Proof.
  induction buf as [|b buf IH]; simpl; [constructor|].
  repeat constructor; auto using hex_digit_lower.
Qed.

Lemma substring_prefix_length s n :
  n <= length s -> length (substring s 0 n) = n.
Proof.
  intros Hn. unfold substring. rewrite length_take, length_drop. lia.
Qed.

Lemma substring_Forall (P : ascii -> Prop) s a b :
  Forall P s -> Forall P (substring s a b).
Proof.
  intros H. unfold substring. apply Forall_take, Forall_drop, H.
Qed.

Lemma drawn_length entropy from n : length (drawn entropy from n) = n.
Proof. unfold drawn. rewrite length_map. apply length_seq. Qed.

Lemma token_of_chars entropy w :
  list_ascii_of_string (token_of entropy w)
  = substring (toString_hex (drawn entropy (cursor w + 16) 16)) 0 16.
Proof. unfold token_of. apply list_ascii_of_string_of_list_ascii. Qed.

Lemma string_length_chars s : String.length s = length (list_ascii_of_string s).
Proof. induction s as [|c s IH]; simpl; congruence. Qed.

Lemma token_of_length entropy w : String.length (token_of entropy w) = 16.
Proof.
  rewrite string_length_chars, token_of_chars.
  apply substring_prefix_length.
  rewrite toString_hex_length, drawn_length. lia.
Qed.

Lemma token_of_lower_hex entropy w :
  Forall (fun c => is_lower_hex c = true)
    (list_ascii_of_string (token_of entropy w)).
Proof.
  rewrite token_of_chars. apply substring_Forall, toString_hex_lower.
Qed.

Lemma token_of_nonempty entropy w : token_of entropy w <> "".
Proof.
  intros H. pose proof (token_of_length entropy w) as L.
  rewrite H in L. discriminate L.
Qed.

(** ** The object handed to the store *)

Lemma user_literal_dom username email hash token :
  dom (user_literal username email hash token)
  = ({[ "username"; "email"; "password"; "activationToken" ]} : gset string).
Proof.
  unfold user_literal. rewrite !dom_insert_L, dom_empty_L. set_solver.
Qed.

Lemma user_literal_username username email hash token :
  prop (user_literal username email hash token) "username" = username.
Proof. unfold prop, user_literal. by simplify_map_eq. Qed.

Lemma user_literal_email username email hash token :
  prop (user_literal username email hash token) "email" = email.
Proof. unfold prop, user_literal. by simplify_map_eq. Qed.

Lemma user_literal_password username email hash token :
  prop (user_literal username email hash token) "password" = JStr hash.
Proof. unfold prop, user_literal. by simplify_map_eq. Qed.

Lemma user_literal_token username email hash token :
  user_literal username email hash token !! "activationToken"
  = Some (JStr token).
Proof. unfold user_literal. by simplify_map_eq. Qed.

Lemma user_literal_activationToken username email hash token :
  prop (user_literal username email hash token) "activationToken"
  = JStr token.
Proof. unfold prop. by rewrite user_literal_token. Qed.

Lemma user_literal_inactive username email hash token :
  user_literal username email hash token !! "inactive" = None.
Proof. unfold user_literal. by simplify_map_eq. Qed.

(** The row the store builds from the literal. *)
Lemma row_of_user_literal key username email hash token :
  row_of_values key (user_literal username email hash token)
  = {| Row.id := key; Row.username := username; Row.email := email;
       Row.password := JStr hash; Row.inactive := true;
       Row.activationToken := Some token |}.
Proof.
  unfold row_of_values.
  rewrite user_literal_username, user_literal_email, user_literal_password,
    user_literal_token, user_literal_inactive.
  reflexivity.
Qed.

(** ** One run of [save] *)

Section Registration.

Variable entropy : nat -> byte.
Variable bcrypt : string -> nat -> list byte -> string.
Variable transport : World -> JsValue -> JsValue -> bool.

(** The object [save] builds from [body] in world [w]. *)
Local Abbreviation user_of body p w :=
  (user_literal (prop body "username") (prop body "email")
     (bcrypt p 10 (salt_of entropy w)) (token_of entropy w)).

(** A value that is not a string is refused by the hash, before any
    collaborator is called. *)
Lemma save_not_a_string body w :
  (forall p, prop body "password" <> JStr p) ->
  save entropy bcrypt transport body w = (w, inl IllegalArguments).
Proof.
  intros H. unfold save, await.
  destruct (prop body "password") as [| | | |p| |] eqn:E; try reflexivity.
  destruct (H p). reflexivity.
Qed.

(** With a string password the run reads 32 bytes of entropy, calls
    the store, and calls the mail service only if the store accepted
    the row. *)
Lemma save_run body w p :
  prop body "password" = JStr p ->
  save entropy bcrypt transport body w =
    let user := user_of body p w in
    let w1 := {| table := table w; next_id := next_id w;
                 cursor := cursor w + 16 + 16;
                 journal := journal w ++ [Call_User_create user] |} in
    if existsb (has_email (prop body "email")) (table w) then
      (w1, inl UniqueConstraintError)
    else
      let w2 := {| table := table w ++ [row_of_values (next_id w) user];
                   next_id := S (next_id w);
                   cursor := cursor w + 16 + 16;
                   journal := journal w1 |} in
      (record_call
         (Call_sendAccountActivation (prop body "email")
            (JStr (token_of entropy w))) w2,
       if transport w2 (prop body "email") (JStr (token_of entropy w))
       then inr tt else inl MailTransportError).
Proof.
  intros Hp. unfold save. rewrite Hp.
  unfold bcrypt_hash, generateToken, await, crypto_randomBytes, resolve,
    User_create, EmailService_sendAccountActivation, record_call.
  cbn [table next_id cursor journal fst snd].
  fold (drawn entropy (cursor w) 16). fold (salt_of entropy w).
  fold (drawn entropy (cursor w + 16) 16). fold (token_of entropy w).
  rewrite user_literal_email, user_literal_activationToken.
  destruct (existsb _ (table w)); [reflexivity|].
  cbn [table next_id cursor journal].
  destruct (transport _ _ _); reflexivity.
Qed.

(** The rows a run adds: none, or the one row built from the literal. *)
Lemma save_new_rows body w u :
  u ∈ new_rows w (fst (save entropy bcrypt transport body w)) ->
  exists p,
    prop body "password" = JStr p
    /\ existsb (has_email (prop body "email")) (table w) = false
    /\ u = {| Row.id := next_id w;
              Row.username := prop body "username";
              Row.email := prop body "email";
              Row.password := JStr (bcrypt p 10 (salt_of entropy w));
              Row.inactive := true;
              Row.activationToken := Some (token_of entropy w) |}.
Proof.
  unfold new_rows.
  destruct (prop body "password") as [| | | |p| |] eqn:E;
    try (rewrite save_not_a_string by (intros ?; congruence);
         cbn [fst]; rewrite drop_all; intros H; inversion H).
  rewrite (save_run _ _ _ E). cbv zeta.
  destruct (existsb _ (table w)) eqn:Ex; cbn [fst table record_call].
  - rewrite drop_all. intros H; inversion H.
  - rewrite drop_app_length, row_of_user_literal.
    intros H%list_elem_of_singleton. eauto.
Qed.

(** The collaborator calls a run makes, in order. *)
Lemma save_new_calls body w :
  new_calls w (fst (save entropy bcrypt transport body w)) =
    match prop body "password" with
    | JStr p =>
        Call_User_create (user_of body p w)
          :: (if existsb (has_email (prop body "email")) (table w) then []
              else [Call_sendAccountActivation (prop body "email")
                      (JStr (token_of entropy w))])
    | _ => []
    end.
Proof.
  unfold new_calls.
  destruct (prop body "password") as [| | | |p| |] eqn:E;
    try (rewrite save_not_a_string by (intros ?; congruence);
         cbn [fst]; apply drop_all).
  rewrite (save_run _ _ _ E). cbv zeta.
  destruct (existsb _ (table w)); cbn [fst journal record_call].
  - apply drop_app_length.
  - rewrite <- app_assoc. apply drop_app_length.
Qed.

(** A run only ever appends to the table. *)
Lemma save_table body w :
  table (fst (save entropy bcrypt transport body w))
  = (table w ++ new_rows w (fst (save entropy bcrypt transport body w)))%list.
Proof.
  unfold new_rows.
  destruct (prop body "password") as [| | | |p| |] eqn:E;
    try (rewrite save_not_a_string by (intros ?; congruence);
         cbn [fst]; rewrite drop_all, app_nil_r; reflexivity).
  rewrite (save_run _ _ _ E). cbv zeta.
  destruct (existsb _ (table w)); cbn [fst table record_call].
  - rewrite drop_all, app_nil_r. reflexivity.
  - rewrite drop_app_length. reflexivity.
Qed.

Lemma generateToken_run n w :
  generateToken entropy n w =
    ({| table := table w; next_id := next_id w; cursor := cursor w + n;
        journal := journal w |},
     inr (string_of_list_ascii
            (substring (toString_hex (drawn entropy (cursor w) n)) 0 n))).
Proof. reflexivity. Qed.

(** C3: whatever the request body holds, and in particular when it
    carries [inactive: false], every row that [save] persists has
    [inactive = true]: the field is not copied from the body, so the
    default of the store applies. *)
Theorem save_forces_inactive body w u :
  u ∈ new_rows w (fst (save entropy bcrypt transport body w)) ->
  Row.inactive u = true.
Proof. intros (p & _ & _ & ->)%save_new_rows. reflexivity. Qed.

(** C4: the activation token of every row that [save] persists is what
    [generateToken 16] returns: 16 bytes read from the entropy source,
    written in hexadecimal and cut to the first 16 characters.  It is
    therefore a non-empty string of exactly 16 characters, each a
    digit or a letter from a to f in lower case. *)
Theorem save_token_is_16_hex_chars body w u :
  u ∈ new_rows w (fst (save entropy bcrypt transport body w)) ->
  exists t,
    Row.activationToken u = Some t
    /\ snd (generateToken entropy 16
              {| table := table w; next_id := next_id w;
                 cursor := cursor w + 16; journal := journal w |})
       = inr t
    /\ length (drawn entropy (cursor w + 16) 16) = 16
    /\ t = string_of_list_ascii
             (substring
                (toString_hex (drawn entropy (cursor w + 16) 16)) 0 16)
    /\ String.length t = 16
    /\ Forall (fun c => is_lower_hex c = true) (list_ascii_of_string t)
    /\ t <> "".
Proof.
  intros (p & _ & _ & ->)%save_new_rows.
  exists (token_of entropy w). cbn [Row.activationToken].
  split_and!.
  - reflexivity.
  - reflexivity.
  - apply drawn_length.
  - reflexivity.
  - apply token_of_length.
  - apply token_of_lower_hex.
  - apply token_of_nonempty.
Qed.

(** The password column of the row that [save] persists holds the
    bcrypt hash of the body's password at cost factor 10 under a freshly
    drawn 16-byte salt.  It can only coincide with the plaintext if the
    hash function maps that password to itself; whether bcrypt ever
    does is a question about the library, not about this service. *)
Lemma save_password_column body w p u :
  prop body "password" = JStr p ->
  u ∈ new_rows w (fst (save entropy bcrypt transport body w)) ->
  length (drawn entropy (cursor w) 16) = 16
  /\ Row.password u = JStr (bcrypt p 10 (drawn entropy (cursor w) 16))
  /\ (Row.password u = JStr p
      <-> bcrypt p 10 (drawn entropy (cursor w) 16) = p).
Proof.
  intros Hp (q & Hq & _ & ->)%save_new_rows.
  assert (q = p) as -> by congruence.
  cbn [Row.password]. unfold salt_of.
  split; [apply drawn_length|]. split; [reflexivity|].
  split; congruence.
Qed.

(** C6: on a payload that passed validation (the password is a string
    and no user has the email), [save] makes exactly two collaborator
    calls, in this order: [User.create], then
    [EmailService.sendAccountActivation].  The mail service is called
    once, in a world [w2] whose table already holds the new row, with
    the email and the activation token of that row. *)
Theorem save_persists_then_mails body w p :
  prop body "password" = JStr p ->
  existsb (has_email (prop body "email")) (table w) = false ->
  exists u w2 values,
    new_calls w (fst (save entropy bcrypt transport body w))
    = [Call_User_create values;
       Call_sendAccountActivation (Row.email u)
         (JStr (token_of entropy w))]
    /\ Row.email u = prop body "email"
    /\ Row.activationToken u = Some (token_of entropy w)
    /\ table w2 = (table w ++ [u])%list
    /\ table (fst (save entropy bcrypt transport body w)) = table w2
    /\ snd (save entropy bcrypt transport body w)
       = if transport w2 (Row.email u) (JStr (token_of entropy w))
         then inr tt else inl MailTransportError.
Proof.
  intros Hp Hfree.
  rewrite save_new_calls, (save_run _ _ _ Hp), Hp, Hfree. cbv zeta.
  cbn [fst snd table record_call].
  rewrite row_of_user_literal.
  set (u := {| Row.id := next_id w;
               Row.username := prop body "username";
               Row.email := prop body "email";
               Row.password := JStr (bcrypt p 10 (salt_of entropy w));
               Row.inactive := true;
               Row.activationToken := Some (token_of entropy w) |}).
  exists u,
    {| table := table w ++ [u]; next_id := S (next_id w);
       cursor := cursor w + 16 + 16;
       journal := journal w ++ [Call_User_create (user_of body p w)] |},
    (user_of body p w).
  split_and!; reflexivity.
Qed.

(** C10: every object that a run of [save] hands to [User.create] has
    exactly the four properties [username], [email], [password] and
    [activationToken].  Its [username] and [email] are the body's, its
    [password] is the bcrypt hash and its [activationToken] is the
    token generated in this run, which does not depend on the body.
    No other property of the body (an [activationToken], an [id], an
    [inactive]) is in it, and the row persisted carries the generated
    token. *)
Theorem save_hands_over_four_fields body w values :
  Call_User_create values
    ∈ new_calls w (fst (save entropy bcrypt transport body w)) ->
  dom values
  = ({[ "username"; "email"; "password"; "activationToken" ]} : gset string)
  /\ values !! "username" = Some (prop body "username")
  /\ values !! "email" = Some (prop body "email")
  /\ (exists p, prop body "password" = JStr p
       /\ values !! "password"
          = Some (JStr (bcrypt p 10 (drawn entropy (cursor w) 16))))
  /\ values !! "activationToken" = Some (JStr (token_of entropy w))
  /\ values !! "id" = None
  /\ values !! "inactive" = None
  /\ forall u,
       u ∈ new_rows w (fst (save entropy bcrypt transport body w)) ->
       Row.activationToken u = Some (token_of entropy w).
Proof.
  rewrite save_new_calls.
  destruct (prop body "password") as [| | | |p| |] eqn:E;
    try (intros H; by inversion H).
  intros H%elem_of_cons.
  assert (values = user_of body p w) as ->.
  { destruct H as [H|H]; [congruence|].
    destruct (existsb _ (table w)); [inversion H|].
    apply list_elem_of_singleton in H. discriminate H. }
  split; [apply user_literal_dom|].
  unfold user_literal, salt_of.
  split_and!; try (by simplify_map_eq).
  - exists p. split; [reflexivity | by simplify_map_eq].
  - intros u (q & _ & _ & ->)%save_new_rows. reflexivity.
Qed.

(** When the transport refuses the message, the run rejects and the
    row it created stays in the table. *)
Lemma save_mail_failure_keeps_row body w p :
  prop body "password" = JStr p ->
  existsb (has_email (prop body "email")) (table w) = false ->
  (forall w2 token, transport w2 (prop body "email") token = false) ->
  snd (save entropy bcrypt transport body w) = inl MailTransportError
  /\ exists u,
       table (fst (save entropy bcrypt transport body w))
       = (table w ++ [u])%list
       /\ Row.email u = prop body "email".
Proof.
  intros Hp Hfree Hdown.
  rewrite (save_run _ _ _ Hp), Hfree. cbv zeta.
  cbn [fst snd table record_call]. rewrite Hdown, row_of_user_literal.
  split; [reflexivity|]. eexists. split; reflexivity.
Qed.

End Registration.

(** ** Activation *)

Lemma activate_found token w i u :
  list_find (holds_token token) (table w) = Some (i, u) ->
  activate token w
  = ({| table := <[i := activated u]> (table w); next_id := next_id w;
        cursor := cursor w; journal := journal w |}, account_activated).
Proof. intros H. unfold activate. rewrite H. reflexivity. Qed.

Lemma activate_not_found token w :
  list_find (holds_token token) (table w) = None ->
  activate token w = (w, invalid_token).
Proof. intros H. unfold activate. rewrite H. reflexivity. Qed.

Lemma no_holder_not_found token (rows : list Row.t) :
  (forall u, u ∈ rows -> Row.activationToken u <> Some token) ->
  list_find (holds_token token) rows = None.
Proof.
  intros H. apply list_find_None, Forall_forall. intros u Hu. apply H, Hu.
Qed.

Lemma holder_found token (rows : list Row.t) u :
  u ∈ rows -> Row.activationToken u = Some token ->
  exists i v, list_find (holds_token token) rows = Some (i, v).
Proof.
  intros Hu Ht.
  destruct (list_find (holds_token token) rows) as [[i v]|] eqn:E; [eauto|].
  apply list_find_None in E. rewrite Forall_forall in E.
  destruct (E u Hu). exact Ht.
Qed.

(** C9: when no user holds the presented token, activation leaves the
    world as it is and answers 400 with one fixed message.  The answer
    is the same whatever the world and whatever the token, so a token
    that was never issued and a token that was already consumed are
    answered alike. *)
Theorem activate_unknown_token w token :
  (forall u, u ∈ table w -> Row.activationToken u <> Some token) ->
  activate token w = (w, invalid_token)
  /\ status invalid_token = 400
  /\ forall w' token',
       (forall u, u ∈ table w' -> Row.activationToken u <> Some token') ->
       snd (activate token' w') = snd (activate token w).
Proof.
  intros H.
  assert (forall w0 t0,
            (forall u, u ∈ table w0 -> Row.activationToken u <> Some t0) ->
            activate t0 w0 = (w0, invalid_token)) as Hgen.
  { intros w0 t0 H0. apply activate_not_found, no_holder_not_found, H0. }
  split_and!.
  - apply Hgen, H.
  - reflexivity.
  - intros w' token' H'. rewrite (Hgen _ _ H), (Hgen _ _ H'). reflexivity.
Qed.

(** When some user holds the presented token, activation answers
    success and replaces the first holder by the same row with its
    token cleared and [inactive] false; no other row changes.  If that
    user was the only holder of the token, presenting the same token
    again is answered with the generic error and changes nothing.  The
    specification speaks of one user per token; that the first of
    several holders is the one taken is a choice of this model. *)
Lemma activate_consumes_token w token :
  (exists u, u ∈ table w /\ Row.activationToken u = Some token) ->
  exists i u,
    table w !! i = Some u
    /\ Row.activationToken u = Some token
    /\ snd (activate token w) = account_activated
    /\ table (fst (activate token w)) = <[i := activated u]> (table w)
    /\ table (fst (activate token w)) !! i = Some (activated u)
    /\ Row.inactive (activated u) = false
    /\ Row.activationToken (activated u) = None
    /\ ((forall j v, table w !! j = Some v ->
                     Row.activationToken v = Some token -> j = i) ->
        activate token (fst (activate token w))
        = (fst (activate token w), invalid_token))
    /\ (forall j v, table w !! j = Some v -> j < i ->
                    Row.activationToken v <> Some token).
Proof.
  intros (u0 & Hu0 & Ht0).
  destruct (holder_found _ _ _ Hu0 Ht0) as (i & u & Hfind).
  pose proof Hfind as (Hi & Hu & Hfirst)%list_find_Some.
  exists i, u. rewrite (activate_found _ _ _ _ Hfind). cbn [fst snd table].
  split_and!; try done.
  - apply list_lookup_insert_eq. eapply lookup_lt_Some, Hi.
  - intros Huniq. apply activate_not_found, no_holder_not_found.
    cbn [table]. intros v (j & Hj)%list_elem_of_lookup_1 Hv.
    destruct (decide (i = j)) as [->|Hne].
    + rewrite list_lookup_insert_eq in Hj by (eapply lookup_lt_Some, Hi).
      injection Hj as <-. discriminate Hv.
    + rewrite list_lookup_insert_ne in Hj by done.
      apply Hne. symmetry. eapply Huniq; eassumption.
Qed.

(** ** The lifecycle invariant *)

Lemma activated_is_active u :
  is_pending (activated u) = false /\ is_active (activated u) = true.
Proof. split; reflexivity. Qed.

Lemma activate_preserves_lifecycle token w :
  lifecycle_ok w -> lifecycle_ok (fst (activate token w)).
Proof.
  intros Hw. unfold activate.
  destruct (list_find _ _) as [[i u]|]; cbn [fst]; [|exact Hw].
  unfold lifecycle_ok. cbn [table]. apply Forall_insert; [exact Hw|].
  reflexivity.
Qed.

Section Lifecycle.

Variable entropy : nat -> byte.
Variable bcrypt : string -> nat -> list byte -> string.
Variable transport : World -> JsValue -> JsValue -> bool.

(** Registration creates users in the pending state. *)
Lemma save_new_rows_pending body w u :
  u ∈ new_rows w (fst (save entropy bcrypt transport body w)) ->
  is_pending u = true /\ is_active u = false.
Proof.
  intros (p & _ & _ & ->)%save_new_rows.
  unfold is_pending, is_active, no_token.
  cbn [Row.inactive Row.activationToken andb negb].
  pose proof (token_of_nonempty entropy w) as Hne.
  apply String.eqb_neq in Hne. rewrite Hne. split; reflexivity.
Qed.

Lemma save_preserves_lifecycle body w :
  lifecycle_ok w ->
  lifecycle_ok (fst (save entropy bcrypt transport body w)).
Proof.
  unfold lifecycle_ok. intros Hw. rewrite save_table.
  apply Forall_app. split; [exact Hw|].
  apply Forall_forall. intros u [-> ->]%save_new_rows_pending.
  reflexivity.
Qed.

Lemma reachable_lifecycle_ok w :
  reachable entropy bcrypt transport w -> lifecycle_ok w.
Proof.
  induction 1 as [|body w _ IH|token w _ IH].
  - constructor.
  - apply save_preserves_lifecycle, IH.
  - apply activate_preserves_lifecycle, IH.
Qed.

(** C2: in every world reachable by registrations and activations,
    each user is in exactly one of two states: pending ([inactive] is
    true and the activation token is a non-empty string) or active
    ([inactive] is false and the activation token is absent or
    empty). *)
Theorem lifecycle_invariant w u :
  reachable entropy bcrypt transport w ->
  u ∈ table w ->
  (Row.inactive u = true
   /\ (exists t, Row.activationToken u = Some t /\ t <> "")
   /\ ~ (Row.inactive u = false
         /\ (Row.activationToken u = None
             \/ Row.activationToken u = Some "")))
  \/ (Row.inactive u = false
      /\ (Row.activationToken u = None \/ Row.activationToken u = Some "")
      /\ ~ (Row.inactive u = true
            /\ exists t, Row.activationToken u = Some t /\ t <> "")).
Proof.
  intros Hw Hu. apply reachable_lifecycle_ok in Hw.
  unfold lifecycle_ok in Hw. rewrite Forall_forall in Hw.
  specialize (Hw u Hu). revert Hw.
  unfold is_pending, is_active, no_token.
  destruct (Row.inactive u), (Row.activationToken u) as [t|];
    cbn [andb negb xorb]; try discriminate.
  - destruct (String.eqb_spec t ""); cbn [negb]; [discriminate|].
    intros _. left. split_and!; [done | eauto | intros [[=] _]].
  - destruct (String.eqb_spec t ""); cbn [negb]; [|discriminate].
    subst t. intros _. right. split_and!; [done | auto | intros [[=] _]].
  - intros _. right. split_and!; [done | auto | intros [[=] _]].
Qed.

End Lifecycle.

(** ** Validation *)

Section ValidationOrder.

Variable isEmail : string -> bool.

(** C7: every rule of the table is evaluated on the payload: a field
    is a key of [validationErrors] exactly when one of its rules is
    violated, whatever the other fields do, and the keys come in the
    order username, email, password.  A payload that violates a
    username rule and an email rule and no password rule therefore
    yields exactly the keys username, email. *)
Theorem validationErrors_keys w body :
  map fst (validationErrors isEmail w body)
  = List.filter (field_violated isEmail w body)
      ["username"; "email"; "password"].
Proof.
  unfold validationErrors, collect, field_violated, rules, violated.
  cbn [List.filter existsb rule_field rule_holds rule_key].
  generalize (non_null (prop body "username")) as u1.
  generalize (on_text (fun s => Nat.leb 4 (String.length s)
                               && Nat.leb (String.length s) 32)
                (prop body "username")) as u2.
  generalize (non_null (prop body "email")) as e1.
  generalize (on_text isEmail (prop body "email")) as e2.
  generalize (on_text (fun s => match snd (findByEmail s w) with
                                | inr (Some _) => false
                                | _ => true
                                end) (prop body "email")) as e3.
  generalize (non_null (prop body "password")) as p1.
  generalize (on_text (fun s => Nat.leb 6 (String.length s))
                (prop body "password")) as p2.
  generalize (on_text strong_password (prop body "password")) as p3.
  intros [] [] [] [] [] [] [] []; reflexivity.
Qed.

(** Reporting never removes an entry. *)
Lemma report_length errors r : length errors <= length (report errors r).
Proof.
  unfold report. destruct (existsb _ _); [lia|]. rewrite length_app. lia.
Qed.

Lemma fold_report_length rs errors :
  length errors <= length (fold_left report rs errors).
Proof.
  revert errors. induction rs as [|r rs IH]; intros errors; simpl; [lia|].
  etransitivity; [apply report_length | apply IH].
Qed.

(** No violation goes unreported. *)
Lemma violation_reported w body r :
  In r (rules isEmail) -> violated w body r = true ->
  validationErrors isEmail w body <> [].
Proof.
  intros Hr Hv. unfold validationErrors, collect.
  assert (In r (List.filter (violated w body) (rules isEmail))) as Hin
    by (apply filter_In; auto).
  destruct (List.filter _ _) as [|r0 rs]; [destruct Hin|].
  intros Hnil. pose proof (fold_report_length rs (report [] r0)) as Hlen.
  simpl in Hnil. rewrite Hnil in Hlen. unfold report in Hlen.
  simpl in Hlen. lia.
Qed.

(** What a payload that passed validation gives [save]: a string
    password, and an email that no row of the table holds. *)
Lemma validated_payload w body :
  validationErrors isEmail w body = [] ->
  (exists p, prop body "password" = JStr p)
  /\ existsb (has_email (prop body "email")) (table w) = false.
Proof.
  intros Hok. split.
  - destruct (prop body "password") as [| | | |p| |] eqn:E; eauto;
      destruct (violation_reported w body
                  (mkRule "password" password_size
                     (fun _ v => on_text
                        (fun s => Nat.leb 6 (String.length s)) v)));
      try exact Hok; try (simpl; tauto);
      unfold violated; cbn [rule_holds rule_field]; rewrite E; reflexivity.
  - destruct (existsb _ (table w)) eqn:Ex; [|reflexivity].
    destruct (violation_reported w body
                (mkRule "email" email_inuse
                   (fun w v => on_text (fun s =>
                      match snd (findByEmail s w) with
                      | inr (Some _) => false
                      | _ => true
                      end) v)));
      try exact Hok; try (simpl; tauto).
    unfold violated. cbn [rule_holds rule_field].
    destruct (prop body "email") as [| | | |e| |]; try reflexivity.
    cbn [on_text]. unfold findByEmail, User_findOne_email. cbn [snd].
    destruct (List.find _ (table w)) eqn:F; [reflexivity|].
    apply existsb_exists in Ex as (u & Hu & He).
    apply (find_none _ _ F) in Hu. congruence.
Qed.

End ValidationOrder.

(** ** Runs on the fixtures *)

(** The payload of the test 'returns errors for both when username and
    email is null'. *)
Example validationErrors_username_and_email_null :
  validationErrors sample_isEmail initial
    (<["email" := JNull]> (<["username" := JNull]> validUser))
  = [("username", username_null); ("email", email_null)].
Proof. vm_compute. reflexivity. Qed.

Example validationErrors_validUser :
  validationErrors sample_isEmail initial validUser = [].
Proof. vm_compute. reflexivity. Qed.

Example validationErrors_email_in_use :
  validationErrors sample_isEmail registered
    (<["username" := JNull]> validUser)
  = [("username", username_null); ("email", email_inuse)].
Proof. vm_compute. reflexivity. Qed.

(** C1: [save] has no compensating action.  With the mail transport
    down, registering [validUser] in the empty store rejects with the
    mail failure and the table still holds the user created for that
    email: a lookup by that email finds the row, where the rollback
    contract asks for no such user. *)
Theorem save_keeps_user_when_mail_fails :
  let r := save counting_entropy sample_bcrypt transport_down validUser
             initial in
  validationErrors sample_isEmail initial validUser = []
  /\ snd r = inl MailTransportError
  /\ table (fst r) = [user1_row]
  /\ snd (findByEmail "user1@example.com" (fst r)) = inr (Some user1_row)
  /\ length (List.filter (has_email (JStr "user1@example.com"))
               (table (fst r))) = 1.
Proof. vm_compute. split_and!; reflexivity. Qed.

Lemma save_forces_inactive_witness :
  user1_row
    ∈ new_rows initial
        (fst (save counting_entropy sample_bcrypt transport_up tamperingUser
                initial))
  /\ tamperingUser !! "inactive" = Some (JBool false)
  /\ Row.inactive user1_row = true.
Proof.
  assert (user1_row
            ∈ new_rows initial
                (fst (save counting_entropy sample_bcrypt transport_up
                        tamperingUser initial))) as H by run.
  split; [exact H|]. split; [reflexivity|].
  exact (save_forces_inactive _ _ _ _ _ _ H).
Defined.

Lemma save_token_is_16_hex_chars_witness :
  user1_row
    ∈ new_rows initial
        (fst (save counting_entropy sample_bcrypt transport_up validUser
                initial))
  /\ exists t,
       Row.activationToken user1_row = Some t
       /\ String.length t = 16
       /\ Forall (fun c => is_lower_hex c = true) (list_ascii_of_string t)
       /\ t <> "".
Proof.
  assert (user1_row
            ∈ new_rows initial
                (fst (save counting_entropy sample_bcrypt transport_up
                        validUser initial))) as H by run.
  split; [exact H|].
  destruct (save_token_is_16_hex_chars _ _ _ _ _ _ H)
    as (t & Ht & _ & _ & _ & Hlen & Hhex & Hne).
  exists t. auto.
Defined.

Lemma save_persists_then_mails_witness :
  prop validUser "password" = JStr "Pass1234"
  /\ existsb (has_email (prop validUser "email")) (table initial) = false
  /\ exists u w2 values,
       new_calls initial registered
       = [Call_User_create values;
          Call_sendAccountActivation (Row.email u)
            (JStr (token_of counting_entropy initial))]
       /\ Row.email u = prop validUser "email"
       /\ Row.activationToken u = Some (token_of counting_entropy initial)
       /\ table w2 = (table initial ++ [u])%list
       /\ table registered = table w2
       /\ snd (save counting_entropy sample_bcrypt transport_up validUser
                 initial)
          = if transport_up w2 (Row.email u)
                 (JStr (token_of counting_entropy initial))
            then inr tt else inl MailTransportError.
Proof.
  assert (prop validUser "password" = JStr "Pass1234") as Hp by reflexivity.
  assert (existsb (has_email (prop validUser "email")) (table initial)
          = false) as Hfree by reflexivity.
  split; [exact Hp|]. split; [exact Hfree|].
  exact (save_persists_then_mails counting_entropy sample_bcrypt transport_up
           validUser initial "Pass1234" Hp Hfree).
Defined.

Lemma save_hands_over_four_fields_witness :
  Call_User_create user1_values
    ∈ new_calls initial
        (fst (save counting_entropy sample_bcrypt transport_up tamperingUser
                initial))
  /\ tamperingUser !! "activationToken" = Some (JStr "chosen-by-client")
  /\ tamperingUser !! "id" = Some (JNum 7)
  /\ dom user1_values
     = ({[ "username"; "email"; "password"; "activationToken" ]}
        : gset string)
  /\ user1_values !! "activationToken"
     = Some (JStr (token_of counting_entropy initial))
  /\ user1_values !! "id" = None
  /\ user1_values !! "inactive" = None.
Proof.
  assert (Call_User_create user1_values
            ∈ new_calls initial
                (fst (save counting_entropy sample_bcrypt transport_up
                        tamperingUser initial))) as H by run.
  split; [exact H|]. split; [reflexivity|]. split; [reflexivity|].
  destruct (save_hands_over_four_fields _ _ _ _ _ _ H)
    as (Hdom & _ & _ & _ & Htoken & Hid & Hinactive & _).
  auto.
Defined.

Lemma lifecycle_invariant_witness :
  reachable counting_entropy sample_bcrypt transport_up
    (fst (activate "1011121314151617" registered))
  /\ activated user1_row ∈ table (fst (activate "1011121314151617" registered))
  /\ Row.inactive (activated user1_row) = false
  /\ Row.activationToken (activated user1_row) = None.
Proof.
  assert (reachable counting_entropy sample_bcrypt transport_up
            (fst (activate "1011121314151617" registered))) as Hw.
  { apply reachable_activate, reachable_save, reachable_initial. }
  assert (activated user1_row
            ∈ table (fst (activate "1011121314151617" registered)))
    as Hu by run.
  split; [exact Hw|]. split; [exact Hu|].
  destruct (lifecycle_invariant _ _ _ _ _ Hw Hu)
    as [(Hpending & _) | (Hactive & _ & _)].
  - discriminate Hpending.
  - split; [exact Hactive | reflexivity].
Defined.

Lemma activate_unknown_token_witness :
  (forall u, u ∈ table registered ->
             Row.activationToken u <> Some "this-token-does-not-exist")
  /\ activate "this-token-does-not-exist" registered
     = (registered, invalid_token)
  /\ status invalid_token = 400.
Proof.
  assert (forall u, u ∈ table registered ->
                    Row.activationToken u
                    <> Some "this-token-does-not-exist") as H.
  { intros u Hu. vm_compute in Hu.
    apply list_elem_of_singleton in Hu. subst u. discriminate. }
  split; [exact H|].
  destruct (activate_unknown_token registered "this-token-does-not-exist" H)
    as (Hsame & Hstatus & _).
  split; [exact Hsame | exact Hstatus].
Defined.

Lemma activate_consumes_token_witness :
  (exists u, u ∈ table registered
             /\ Row.activationToken u = Some "1011121314151617")
  /\ snd (activate "1011121314151617" registered) = account_activated
  /\ table (fst (activate "1011121314151617" registered))
     = [activated user1_row]
  /\ activate "1011121314151617"
       (fst (activate "1011121314151617" registered))
     = (fst (activate "1011121314151617" registered), invalid_token).
Proof.
  assert (exists u, u ∈ table registered
                    /\ Row.activationToken u = Some "1011121314151617")
    as H.
  { exists user1_row. split; [run | reflexivity]. }
  split; [exact H|].
  destruct (activate_consumes_token registered "1011121314151617" H)
    as (i & u & Hi & Hu & Hok & Htable & _ & _ & _ & Hagain & _).
  split; [exact Hok|]. split; [reflexivity|].
  apply Hagain. intros j v Hj Hv.
  assert (table registered = [user1_row]) as Hrows by (vm_compute; reflexivity).
  rewrite Hrows in Hi, Hj.
  destruct i as [|i]; [|destruct i; discriminate Hi].
  destruct j as [|j]; [reflexivity | destruct j; discriminate Hj].
Defined.

(** * Further properties *)

(** ** [generateToken] at other lengths *)

Lemma substring_from_0 s n : substring s 0 n = take n s.
Proof.
  unfold substring. rewrite Nat.min_0_l, Nat.max_0_l, Nat.sub_0_r, drop_0.
  destruct (Nat.le_gt_cases n (length s)) as [H|H].
  - rewrite Nat.min_l by exact H. reflexivity.
  - rewrite Nat.min_r by lia. rewrite !take_ge by lia. reflexivity.
Qed.

(** A prefix of the hexadecimal text only shows a prefix of the buffer. *)
Lemma take_toString_hex buf : forall n,
  take n (toString_hex buf) = take n (toString_hex (take ((n + 1) / 2) buf)).
Proof.
  induction buf as [|b buf IH]; intros n.
  - rewrite take_nil. reflexivity.
  - destruct n as [|[|n]]; [reflexivity | reflexivity |].
    replace ((S (S n) + 1) / 2) with (S ((n + 1) / 2))
      by (apply Nat.div_unique with ((n + 1) mod 2);
          [apply Nat.mod_upper_bound; lia
          |pose proof (Nat.div_mod_eq (n + 1) 2); lia]).
    cbn [take toString_hex]. rewrite IH. reflexivity.
Qed.

Lemma take_even_toString_hex buf : forall k,
  take (2 * k) (toString_hex buf) = toString_hex (take k buf).
Proof.
  induction buf as [|b buf IH]; intros k.
  - cbn [toString_hex]. rewrite !take_nil. reflexivity.
  - destruct k as [|k]; [reflexivity|].
    replace (2 * S k) with (S (S (2 * k))) by lia.
    cbn [take toString_hex]. rewrite IH. reflexivity.
Qed.

Lemma hex_digit_code n :
  n < 16 ->
  nat_of_ascii (hex_digit n) = if Nat.ltb n 10 then 48 + n else 87 + n.
Proof.
  intros H. do 16 (destruct n as [|n]; [reflexivity|]). lia.
Qed.

Lemma hex_digit_inj n m :
  n < 16 -> m < 16 -> hex_digit n = hex_digit m -> n = m.
Proof.
  intros Hn Hm H. apply (f_equal nat_of_ascii) in H.
  rewrite !hex_digit_code in H by assumption.
  destruct (Nat.ltb_spec n 10), (Nat.ltb_spec m 10); lia.
Qed.

Lemma byte_digits_inj b c :
  hex_digit (Byte.to_nat b / 16) = hex_digit (Byte.to_nat c / 16) ->
  hex_digit (Byte.to_nat b mod 16) = hex_digit (Byte.to_nat c mod 16) ->
  b = c.
Proof.
  intros Hhi Hlo.
  pose proof (Byte.to_nat_bounded b) as Hb.
  pose proof (Byte.to_nat_bounded c) as Hc.
  apply hex_digit_inj in Hhi;
    [|apply Nat.Div0.div_lt_upper_bound; lia
     |apply Nat.Div0.div_lt_upper_bound; lia].
  apply hex_digit_inj in Hlo; [|apply Nat.mod_upper_bound; lia ..].
  assert (Byte.to_nat b = Byte.to_nat c) as Heq.
  { rewrite (Nat.div_mod_eq (Byte.to_nat b) 16),
      (Nat.div_mod_eq (Byte.to_nat c) 16). congruence. }
  pose proof (Byte.of_to_nat b) as Ob. pose proof (Byte.of_to_nat c) as Oc.
  congruence.
Qed.

Lemma toString_hex_inj buf : forall buf',
  toString_hex buf = toString_hex buf' -> buf = buf'.
Proof.
  induction buf as [|b buf IH]; intros [|c buf'] H; try discriminate H.
  - reflexivity.
  - cbn [toString_hex] in H. injection H as Hhi Hlo Hrest.
    f_equal; [apply byte_digits_inj; assumption | apply IH, Hrest].
Qed.

Lemma string_of_list_ascii_inj (s t : list ascii) :
  string_of_list_ascii s = string_of_list_ascii t -> s = t.
Proof.
  intros H. apply (f_equal list_ascii_of_string) in H.
  rewrite !list_ascii_of_string_of_list_ascii in H. exact H.
Qed.

Lemma take_drawn entropy from k n :
  k <= n -> take k (drawn entropy from n) = drawn entropy from k.
Proof.
  intros H. unfold drawn. rewrite <- fmap_take, take_seq.
  rewrite Nat.min_l by exact H. reflexivity.
Qed.

Section Tokens.

Variable entropy : nat -> byte.

(** X1: for every supported length [n], [generateToken n] resolves,
    with a string of exactly [n] characters, all of them lowercase
    hexadecimal digits; it reads [n] bytes of entropy and touches
    nothing else. *)
Theorem generateToken_length_and_digits n w :
  supported_length n ->
  exists t,
    generateToken entropy n w
    = ({| table := table w; next_id := next_id w; cursor := cursor w + n;
          journal := journal w |}, inr t)
    /\ String.length t = n
    /\ Forall (fun c => is_lower_hex c = true) (list_ascii_of_string t).
Proof.
  intros _. eexists. split; [apply generateToken_run|].
  rewrite string_length_chars, list_ascii_of_string_of_list_ascii.
  split.
  - apply substring_prefix_length.
    rewrite toString_hex_length, drawn_length. lia.
  - apply substring_Forall, toString_hex_lower.
Qed.

(** X3: at a supported even length [2 * k], the token is the
    hexadecimal text of the first [k] bytes read, and that text
    determines the bytes: two calls return the same token exactly when
    the first [k] bytes they read are the same. *)
Theorem generateToken_even_same_token entropy' k w w' :
  supported_length (2 * k) ->
  snd (generateToken entropy (2 * k) w)
  = snd (generateToken entropy' (2 * k) w')
  <-> drawn entropy (cursor w) k = drawn entropy' (cursor w') k.
Proof.
  intros _. rewrite !generateToken_run. cbn [snd].
  rewrite !substring_from_0, !take_even_toString_hex.
  rewrite !take_drawn by lia.
  split.
  - intros H. injection H as H.
    apply toString_hex_inj, string_of_list_ascii_inj, H.
  - intros ->. reflexivity.
Qed.

End Tokens.

(** X2: of the [n] bytes [generateToken n] reads, only the first
    [(n + 1) / 2] reach the token: two entropy sources that agree on
    those bytes give the same token, whatever the other bytes are. *)
Theorem generateToken_uses_half entropy entropy' n w :
  (forall i, i < (n + 1) / 2 ->
             entropy (cursor w + i) = entropy' (cursor w + i)) ->
  snd (generateToken entropy n w) = snd (generateToken entropy' n w).
Proof.
  intros Hagree. rewrite !generateToken_run. cbn [snd].
  rewrite !substring_from_0.
  rewrite (take_toString_hex (drawn entropy _ _)),
    (take_toString_hex (drawn entropy' _ _)).
  assert ((n + 1) / 2 <= n) as Hle
    by (pose proof (Nat.div_mod_eq (n + 1) 2); lia).
  rewrite !take_drawn by exact Hle.
  assert (drawn entropy (cursor w) ((n + 1) / 2)
          = drawn entropy' (cursor w) ((n + 1) / 2)) as ->; [|reflexivity].
  unfold drawn. apply map_ext_in. intros j Hj%in_seq.
  replace j with (cursor w + (j - cursor w)) by lia.
  apply Hagree. lia.
Qed.

(** ** Registration and lookup *)

Lemma find_app {A} (f : A -> bool) (l k : list A) :
  List.find f (l ++ k)
  = match List.find f l with
    | Some x => Some x
    | None => List.find f k
    end.
Proof.
  induction l as [|x l IH]; simpl; [reflexivity|].
  destruct (f x); [reflexivity | exact IH].
Qed.

Lemma existsb_false_find {A} (f : A -> bool) (l : list A) :
  existsb f l = false -> List.find f l = None.
Proof.
  induction l as [|x l IH]; simpl; [reflexivity|].
  destruct (f x); [discriminate | exact IH].
Qed.

Section RegistrationAndLookup.

Variable entropy : nat -> byte.
Variable bcrypt : string -> nat -> list byte -> string.
Variable transport : World -> JsValue -> JsValue -> bool.

Lemma save_journal body w :
  journal (fst (save entropy bcrypt transport body w))
  = (journal w ++ new_calls w (fst (save entropy bcrypt transport body w)))%list.
Proof.
  unfold new_calls.
  destruct (prop body "password") as [| | | |p| |] eqn:E;
    try (rewrite save_not_a_string by (intros ?; congruence);
         cbn [fst]; rewrite drop_all, app_nil_r; reflexivity).
  rewrite (save_run _ _ _ _ _ _ E). cbv zeta.
  destruct (existsb _ (table w)); cbn [fst journal record_call].
  - rewrite drop_app_length. reflexivity.
  - rewrite <- app_assoc, drop_app_length. reflexivity.
Qed.

(** X4: a run of [save] leaves every row that was in the table where it
    was and as it was; it adds at most one row, at the end. *)
Theorem save_only_appends body w :
  exists added,
    table (fst (save entropy bcrypt transport body w))
    = (table w ++ added)%list
    /\ length added <= 1
    /\ forall i u, table w !! i = Some u ->
                   table (fst (save entropy bcrypt transport body w)) !! i
                   = Some u.
Proof.
  exists (new_rows w (fst (save entropy bcrypt transport body w))).
  split; [apply save_table|]. split.
  - unfold new_rows.
    destruct (prop body "password") as [| | | |p| |] eqn:E;
      try (rewrite save_not_a_string by (intros ?; congruence);
           cbn [fst]; rewrite drop_all; simpl; lia).
    rewrite (save_run _ _ _ _ _ _ E). cbv zeta.
    destruct (existsb _ (table w)); cbn [fst table record_call].
    + rewrite drop_all. simpl. lia.
    + rewrite drop_app_length. simpl. lia.
  - intros i u Hi. rewrite save_table.
    rewrite lookup_app_l by (eapply lookup_lt_Some, Hi). exact Hi.
Qed.

(** X5: when a row already holds the body's email, [User.create]
    rejects and [save] stops there: it rejects with the store's
    failure, the table is unchanged and the mail service is not
    called. *)
Theorem save_duplicate_email body w p :
  prop body "password" = JStr p ->
  existsb (has_email (prop body "email")) (table w) = true ->
  snd (save entropy bcrypt transport body w) = inl UniqueConstraintError
  /\ table (fst (save entropy bcrypt transport body w)) = table w
  /\ exists values,
       new_calls w (fst (save entropy bcrypt transport body w))
       = [Call_User_create values].
Proof.
  intros Hp Hdup. rewrite save_new_calls, (save_run _ _ _ _ _ _ Hp), Hp, Hdup.
  cbv zeta. cbn [fst snd table]. eauto.
Qed.

(** X6: registration followed by lookup.  For a body with a string
    password and a string email [e] that no row holds, [findByEmail e]
    finds nothing before [save] and finds the new row after it, whether
    the mail was accepted or not; the row carries the body's username
    and email. *)
Theorem save_then_findByEmail body w p e :
  prop body "password" = JStr p ->
  prop body "email" = JStr e ->
  existsb (has_email (JStr e)) (table w) = false ->
  snd (findByEmail e w) = inr None
  /\ exists u,
       snd (findByEmail e (fst (save entropy bcrypt transport body w)))
       = inr (Some u)
       /\ Row.email u = JStr e
       /\ Row.username u = prop body "username"
       /\ Row.id u = next_id w
       /\ Row.inactive u = true.
Proof.
  intros Hp He Hfree. unfold findByEmail, User_findOne_email. cbn [snd].
  pose proof (existsb_false_find _ _ Hfree) as Hnone.
  split; [rewrite Hnone; reflexivity|].
  rewrite (save_run _ _ _ _ _ _ Hp), He, Hfree. cbv zeta.
  cbn [fst table record_call].
  rewrite find_app, Hnone, row_of_user_literal.
  cbn [List.find]. unfold has_email at 1. cbn [Row.email].
  rewrite String.eqb_refl. eexists. split; [reflexivity|].
  cbn [Row.email Row.username Row.id Row.inactive]. auto.
Qed.

(** X7: a lookup that found a user finds the same user after any run of
    [save], whatever the body and the outcome. *)
Theorem findByEmail_stable body w e u :
  snd (findByEmail e w) = inr (Some u) ->
  snd (findByEmail e (fst (save entropy bcrypt transport body w)))
  = inr (Some u).
Proof.
  unfold findByEmail, User_findOne_email. cbn [snd].
  intros H. injection H as H.
  rewrite save_table, find_app, H. reflexivity.
Qed.

(** X8: when the body's password is not a string (absent, null, a
    number, ...), the hash rejects and [save] does nothing at all: no
    entropy is read, no row is created and no collaborator is called. *)
Theorem save_rejects_non_string_password body w :
  (forall p, prop body "password" <> JStr p) ->
  save entropy bcrypt transport body w = (w, inl IllegalArguments)
  /\ new_rows w (fst (save entropy bcrypt transport body w)) = []
  /\ new_calls w (fst (save entropy bcrypt transport body w)) = [].
Proof.
  intros H. rewrite save_not_a_string by exact H. cbn [fst].
  unfold new_rows, new_calls. rewrite !drop_all. auto.
Qed.

(** X9: registering the same body twice.  After a first run that
    created the user, a second run with the same body rejects with the
    store's failure, leaves the table as the first run left it and does
    not call the mail service again. *)
Theorem save_twice body w p e :
  prop body "password" = JStr p ->
  prop body "email" = JStr e ->
  existsb (has_email (JStr e)) (table w) = false ->
  let w1 := fst (save entropy bcrypt transport body w) in
  snd (save entropy bcrypt transport body w1) = inl UniqueConstraintError
  /\ table (fst (save entropy bcrypt transport body w1)) = table w1
  /\ length (table w1) = S (length (table w))
  /\ exists values,
       new_calls w1 (fst (save entropy bcrypt transport body w1))
       = [Call_User_create values].
Proof.
  intros Hp He Hfree w1.
  assert (table w1
          = (table w
             ++ [row_of_values (next_id w)
                   (user_literal (prop body "username") (prop body "email")
                      (bcrypt p 10 (salt_of entropy w))
                      (token_of entropy w))])%list) as Hw1.
  { unfold w1. rewrite (save_run _ _ _ _ _ _ Hp), He, Hfree. reflexivity. }
  assert (existsb (has_email (prop body "email")) (table w1) = true) as Hdup.
  { rewrite Hw1, existsb_app, row_of_user_literal, He. cbn [existsb].
    unfold has_email at 2. cbn [Row.email]. rewrite String.eqb_refl.
    apply orb_true_iff. right. reflexivity. }
  rewrite save_new_calls, (save_run _ _ _ _ _ _ Hp), Hp, Hdup. cbv zeta.
  cbn [fst snd table]. split_and!; eauto.
  rewrite Hw1, length_app. simpl. lia.
Qed.

End RegistrationAndLookup.

(** ** What holds in every reachable world *)

Lemma activate_table token w :
  table (fst (activate token w)) = table w
  \/ exists i u,
       table w !! i = Some u
       /\ table (fst (activate token w)) = <[i := activated u]> (table w).
Proof.
  unfold activate.
  destruct (list_find _ _) as [[i u]|] eqn:E; cbn [fst table]; [|auto].
  apply list_find_Some in E as (Hi & _ & _). eauto.
Qed.

Lemma activate_journal token w :
  journal (fst (activate token w)) = journal w.
Proof. unfold activate. destruct (list_find _ _) as [[i u]|]; reflexivity. Qed.

Lemma activate_emails token w :
  Row.email <$> table (fst (activate token w)) = Row.email <$> table w.
Proof.
  destruct (activate_table token w) as [->|(i & u & Hi & ->)]; [reflexivity|].
  rewrite list_fmap_insert. apply list_insert_id.
  rewrite list_lookup_fmap, Hi. reflexivity.
Qed.

Lemma emails_unique_snoc rows row :
  emails_unique rows ->
  existsb (has_email (Row.email row)) rows = false ->
  emails_unique (rows ++ [row]).
Proof.
  intros IH Hfree.
  assert (forall k u e, rows !! k = Some u -> Row.email u = JStr e ->
                        Row.email row = JStr e -> False) as Hclash.
  { intros k u e Hk Hu Hrow.
    assert (existsb (has_email (Row.email row)) rows = true) as Hdup.
    { apply existsb_exists. exists u. split.
      - apply list_elem_of_In. eapply list_elem_of_lookup_2, Hk.
      - unfold has_email. rewrite Hrow, Hu. apply String.eqb_refl. }
    congruence. }
  intros i j u v e Hi Hj Hu Hv.
  apply lookup_app_Some in Hi as [Hi|[Hil Hi]];
    apply lookup_app_Some in Hj as [Hj|[Hjl Hj]].
  - eapply IH; eassumption.
  - destruct (j - length rows) as [|k] eqn:Ek; [|discriminate Hj].
    injection Hj as <-. destruct (Hclash _ _ _ Hi Hu Hv).
  - destruct (i - length rows) as [|k] eqn:Ek; [|discriminate Hi].
    injection Hi as <-. destruct (Hclash _ _ _ Hj Hv Hu).
  - destruct (i - length rows) as [|k] eqn:Ei; [|discriminate Hi].
    destruct (j - length rows) as [|k] eqn:Ej; [|discriminate Hj].
    lia.
Qed.

Lemma emails_unique_same_emails rows rows' :
  Row.email <$> rows' = Row.email <$> rows ->
  emails_unique rows -> emails_unique rows'.
Proof.
  intros Heq IH i j u v e Hi Hj Hu Hv.
  assert (forall k x, rows' !! k = Some x ->
                      exists y, rows !! k = Some y
                                /\ Row.email y = Row.email x) as Hback.
  { intros k x Hk.
    assert ((Row.email <$> rows) !! k = Some (Row.email x)) as H
      by (rewrite <- Heq, list_lookup_fmap, Hk; reflexivity).
    apply list_lookup_fmap_Some in H as (y & Hy & Hxy). eauto. }
  destruct (Hback _ _ Hi) as (u0 & Hi0 & Hu0).
  destruct (Hback _ _ Hj) as (v0 & Hj0 & Hv0).
  eapply (IH i j u0 v0 e); congruence.
Qed.

Section Reachable.

Variable entropy : nat -> byte.
Variable bcrypt : string -> nat -> list byte -> string.
Variable transport : World -> JsValue -> JsValue -> bool.

(** A property of rows that registration establishes and activation
    keeps holds of every row of every reachable world. *)
Lemma reachable_rows (P : Row.t -> Prop) :
  (forall body w u,
      u ∈ new_rows w (fst (save entropy bcrypt transport body w)) -> P u) ->
  (forall u, P u -> P (activated u)) ->
  forall w, reachable entropy bcrypt transport w -> Forall P (table w).
Proof.
  intros Hnew Hact w Hw.
  induction Hw as [|body w _ IH|token w _ IH].
  - constructor.
  - rewrite save_table. apply Forall_app. split; [exact IH|].
    apply Forall_forall. intros u Hu. eapply Hnew, Hu.
  - destruct (activate_table token w) as [->|(i & u & Hi & ->)]; [exact IH|].
    apply Forall_insert; [exact IH|].
    apply Hact. eapply Forall_lookup_1; eassumption.
Qed.

(** X10: in every reachable world no two rows hold the same email
    string: [save] only adds a row when [User.create] found no row with
    that email, and nothing else writes the column. *)
Theorem reachable_emails_unique w i j u v e :
  reachable entropy bcrypt transport w ->
  table w !! i = Some u -> table w !! j = Some v ->
  Row.email u = JStr e -> Row.email v = JStr e ->
  i = j.
Proof.
  intros Hw. revert i j u v e. change (emails_unique (table w)).
  induction Hw as [|body w _ IH|token w _ IH].
  - intros i j u v e Hi. cbn [initial table] in Hi.
    rewrite lookup_nil in Hi. discriminate Hi.
  - destruct (prop body "password") as [| | | |p| |] eqn:E;
      try (rewrite save_not_a_string by (intros ?; congruence); exact IH).
    rewrite (save_run _ _ _ _ _ _ E). cbv zeta.
    destruct (existsb _ (table w)) eqn:Hfree; cbn [fst table record_call];
      [exact IH|].
    apply emails_unique_snoc; [exact IH|].
    rewrite row_of_user_literal. cbn [Row.email]. exact Hfree.
  - eapply emails_unique_same_emails; [apply activate_emails | exact IH].
Qed.

(** X11: in every reachable world, every activation token still in the
    table is a string of exactly 16 lowercase hexadecimal digits. *)
Theorem reachable_tokens_16_hex w u t :
  reachable entropy bcrypt transport w ->
  u ∈ table w ->
  Row.activationToken u = Some t ->
  String.length t = 16
  /\ Forall (fun c => is_lower_hex c = true) (list_ascii_of_string t).
Proof.
  intros Hw Hu.
  assert (Forall
            (fun u => forall t, Row.activationToken u = Some t ->
               String.length t = 16
               /\ Forall (fun c => is_lower_hex c = true)
                    (list_ascii_of_string t)) (table w)) as HF.
  { apply reachable_rows; [| |exact Hw].
    - intros body w0 u0 (p & _ & _ & ->)%save_new_rows t0 [= <-].
      split; [apply token_of_length | apply token_of_lower_hex].
    - intros u0 _ t0 Ht. discriminate Ht. }
  rewrite Forall_forall in HF. exact (HF u Hu t).
Qed.



(** X13: in every reachable world, every call made to the mail service
    was for the email of a user that is in the table: no activation
    mail goes to an address without a user row. *)
Theorem reachable_mail_has_user w e t :
  reachable entropy bcrypt transport w ->
  Call_sendAccountActivation e t ∈ journal w ->
  exists u, u ∈ table w /\ Row.email u = e.
Proof.
  intros Hw Hcall.
  assert (e ∈ Row.email <$> table w) as He.
  { revert e t Hcall.
    induction Hw as [|body w _ IH|token w _ IH]; intros e t Hcall.
    - inversion Hcall.
    - rewrite save_journal in Hcall. apply elem_of_app in Hcall as [Hold|Hnew].
      + rewrite save_table, fmap_app. apply elem_of_app. left.
        eapply IH, Hold.
      + rewrite save_new_calls in Hnew.
        destruct (prop body "password") as [| | | |p| |] eqn:E;
          try (by inversion Hnew).
        rewrite (save_run _ _ _ _ _ _ E). cbv zeta.
        apply elem_of_cons in Hnew as [Hnew|Hnew]; [discriminate Hnew|].
        destruct (existsb _ (table w)); [by inversion Hnew|].
        apply list_elem_of_singleton in Hnew. injection Hnew as -> _.
        cbn [fst table record_call].
        rewrite fmap_app, row_of_user_literal. apply elem_of_app. right.
        cbn [fmap list_fmap Row.email]. apply list_elem_of_singleton.
        reflexivity.
    - rewrite activate_journal in Hcall. rewrite activate_emails.
      eapply IH, Hcall. }
  apply list_elem_of_fmap in He as (u & -> & Hu). eauto.
Qed.

End Reachable.

(** ** The SMTP server of the test-suite *)

Lemma string_app_assoc (a b c : string) : (a ++ b) ++ c = a ++ (b ++ c).
Proof.
  induction a as [|x a IH]; [reflexivity|].
  change (String x ((a ++ b) ++ c) = String x (a ++ (b ++ c))).
  f_equal. exact IH.
Qed.

Lemma string_app_empty (a : string) : a ++ "" = a.
Proof.
  induction a as [|x a IH]; [reflexivity|].
  change (String x (a ++ "") = String x a). f_equal. exact IH.
Qed.

Lemma fold_add_chunk chunks : forall body,
  fold_left add_chunk chunks (Some body)
  = Some (body ++ fold_right String.append "" chunks).
Proof.
  induction chunks as [|d chunks IH]; intros body.
  - cbn [fold_left fold_right]. rewrite string_app_empty. reflexivity.
  - cbn [fold_left fold_right]. unfold add_chunk at 2.
    rewrite IH, string_app_assoc. reflexivity.
Qed.

(** X14: what the test server records.  When a failure is simulated the
    message is refused with response code 533 and [lastMail] keeps its
    value.  Otherwise [lastMail] becomes the chunks received, in order,
    after the nine characters of the word undefined; with no chunk at
    all it becomes [undefined]. *)
Theorem onData_records chunks probe :
  onData chunks probe
  = if simulateSmtpFailure probe then (probe, Some 533)
    else ({| lastMail :=
               match chunks with
               | [] => None
               | _ => Some ("undefined"
                            ++ fold_right String.append "" chunks)
               end;
             simulateSmtpFailure := false |}, None).
Proof.
  unfold onData. destruct (simulateSmtpFailure probe) eqn:E; [reflexivity|].
  f_equal. f_equal. destruct chunks as [|d chunks]; [reflexivity|].
  cbn [fold_left]. unfold add_chunk at 2. rewrite fold_add_chunk.
  cbn [fold_right]. rewrite string_app_assoc. reflexivity.
Qed.

(** ** Further runs on the fixtures *)

Lemma registered_reachable :
  reachable counting_entropy sample_bcrypt transport_up registered.
Proof. apply reachable_save, reachable_initial. Qed.

Lemma generateToken_uses_half_witness :
  (forall i, i < (16 + 1) / 2 ->
             counting_entropy (cursor initial + i)
             = short_entropy (cursor initial + i))
  /\ snd (generateToken counting_entropy 16 initial)
     = snd (generateToken short_entropy 16 initial)
  /\ counting_entropy 8 <> short_entropy 8.
Proof.
  assert (forall i, i < (16 + 1) / 2 ->
                    counting_entropy (cursor initial + i)
                    = short_entropy (cursor initial + i)) as H.
  { intros i Hi. change ((16 + 1) / 2) with 8 in Hi.
    do 8 (destruct i as [|i]; [reflexivity|]). lia. }
  split; [exact H|].
  split; [exact (generateToken_uses_half _ _ _ _ H)|].
  vm_compute. discriminate.
Defined.

Lemma save_only_appends_witness :
  table registered !! 0 = Some user1_row
  /\ table (fst (save counting_entropy sample_bcrypt transport_up otherUser
                   registered)) !! 0 = Some user1_row.
Proof.
  assert (table registered !! 0 = Some user1_row) as H by reflexivity.
  split; [exact H|].
  destruct (save_only_appends counting_entropy sample_bcrypt transport_up
              otherUser registered) as (added & _ & _ & Hkeep).
  exact (Hkeep 0 user1_row H).
Defined.

Lemma save_duplicate_email_witness :
  prop validUser "password" = JStr "Pass1234"
  /\ existsb (has_email (prop validUser "email")) (table registered) = true
  /\ snd (save counting_entropy sample_bcrypt transport_up validUser
            registered)
     = inl UniqueConstraintError
  /\ table (fst (save counting_entropy sample_bcrypt transport_up validUser
                   registered))
     = table registered.
Proof.
  assert (prop validUser "password" = JStr "Pass1234") as Hp by reflexivity.
  assert (existsb (has_email (prop validUser "email")) (table registered)
          = true) as Hdup by (vm_compute; reflexivity).
  split; [exact Hp|]. split; [exact Hdup|].
  destruct (save_duplicate_email counting_entropy sample_bcrypt transport_up
              validUser registered "Pass1234" Hp Hdup)
    as (Hfail & Htable & _).
  split; [exact Hfail | exact Htable].
Defined.

Lemma save_then_findByEmail_witness :
  prop validUser "password" = JStr "Pass1234"
  /\ prop validUser "email" = JStr "user1@example.com"
  /\ existsb (has_email (JStr "user1@example.com")) (table initial) = false
  /\ snd (findByEmail "user1@example.com" initial) = inr None
  /\ exists u,
       snd (findByEmail "user1@example.com"
              (fst (save counting_entropy sample_bcrypt transport_down
                      validUser initial)))
       = inr (Some u)
       /\ Row.email u = JStr "user1@example.com".
Proof.
  assert (prop validUser "password" = JStr "Pass1234") as Hp by reflexivity.
  assert (prop validUser "email" = JStr "user1@example.com") as He
    by reflexivity.
  assert (existsb (has_email (JStr "user1@example.com")) (table initial)
          = false) as Hfree by reflexivity.
  split; [exact Hp|]. split; [exact He|]. split; [exact Hfree|].
  destruct (save_then_findByEmail counting_entropy sample_bcrypt
              transport_down validUser initial "Pass1234"
              "user1@example.com" Hp He Hfree)
    as (Hbefore & u & Hafter & Hemail & _).
  split; [exact Hbefore|]. exists u. split; [exact Hafter | exact Hemail].
Defined.

Lemma findByEmail_stable_witness :
  snd (findByEmail "user1@example.com" registered) = inr (Some user1_row)
  /\ snd (findByEmail "user1@example.com"
            (fst (save counting_entropy sample_bcrypt transport_up otherUser
                    registered)))
     = inr (Some user1_row).
Proof.
  assert (snd (findByEmail "user1@example.com" registered)
          = inr (Some user1_row)) as H by (vm_compute; reflexivity).
  split; [exact H|].
  exact (findByEmail_stable counting_entropy sample_bcrypt transport_up
           otherUser registered "user1@example.com" user1_row H).
Defined.

Lemma save_rejects_non_string_password_witness :
  (forall p, prop (<["password" := JNull]> validUser) "password" <> JStr p)
  /\ save counting_entropy sample_bcrypt transport_up
       (<["password" := JNull]> validUser) initial
     = (initial, inl IllegalArguments).
Proof.
  assert (forall p, prop (<["password" := JNull]> validUser) "password"
                    <> JStr p) as H.
  { intros p Hp. vm_compute in Hp. discriminate Hp. }
  split; [exact H|].
  destruct (save_rejects_non_string_password counting_entropy sample_bcrypt
              transport_up (<["password" := JNull]> validUser) initial H)
    as (Hrun & _ & _).
  exact Hrun.
Defined.

Lemma save_twice_witness :
  prop validUser "password" = JStr "Pass1234"
  /\ prop validUser "email" = JStr "user1@example.com"
  /\ existsb (has_email (JStr "user1@example.com")) (table initial) = false
  /\ snd (save counting_entropy sample_bcrypt transport_up validUser
            registered)
     = inl UniqueConstraintError
  /\ table (fst (save counting_entropy sample_bcrypt transport_up validUser
                   registered))
     = table registered.
Proof.
  assert (prop validUser "password" = JStr "Pass1234") as Hp by reflexivity.
  assert (prop validUser "email" = JStr "user1@example.com") as He
    by reflexivity.
  assert (existsb (has_email (JStr "user1@example.com")) (table initial)
          = false) as Hfree by reflexivity.
  split; [exact Hp|]. split; [exact He|]. split; [exact Hfree|].
  destruct (save_twice counting_entropy sample_bcrypt transport_up validUser
              initial "Pass1234" "user1@example.com" Hp He Hfree)
    as (Hfail & Htable & _).
  split; [exact Hfail | exact Htable].
Defined.

Lemma reachable_emails_unique_witness :
  reachable constant_entropy sample_bcrypt transport_up collided
  /\ (exists u, table collided !! 1 = Some u
                /\ Row.email u = JStr "user2@example.com")
  /\ forall i u, table collided !! i = Some u ->
                 Row.email u = JStr "user2@example.com" -> i = 1.
Proof.
  assert (reachable constant_entropy sample_bcrypt transport_up collided)
    as Hw by apply reachable_save, reachable_save, reachable_initial.
  assert (exists u, table collided !! 1 = Some u
                    /\ Row.email u = JStr "user2@example.com") as Hrow
    by (eexists; split; vm_compute; reflexivity).
  split; [exact Hw|]. split; [exact Hrow|].
  intros i u Hi Hu. destruct Hrow as (v & Hv & Hve).
  exact (reachable_emails_unique constant_entropy sample_bcrypt transport_up
           collided i 1 u v "user2@example.com" Hw Hi Hv Hu Hve).
Defined.

Lemma reachable_tokens_16_hex_witness :
  reachable counting_entropy sample_bcrypt transport_up registered
  /\ user1_row ∈ table registered
  /\ Row.activationToken user1_row = Some "1011121314151617"
  /\ String.length "1011121314151617" = 16
  /\ Forall (fun c => is_lower_hex c = true)
       (list_ascii_of_string "1011121314151617").
Proof.
  assert (user1_row ∈ table registered) as Hu by run.
  assert (Row.activationToken user1_row = Some "1011121314151617") as Ht
    by reflexivity.
  split; [exact registered_reachable|]. split; [exact Hu|].
  split; [exact Ht|].
  exact (reachable_tokens_16_hex counting_entropy sample_bcrypt transport_up
           registered user1_row "1011121314151617" registered_reachable
           Hu Ht).
Defined.


Lemma generateToken_length_and_digits_witness :
  supported_length 16
  /\ exists t,
       generateToken counting_entropy 16 initial
       = ({| table := table initial; next_id := next_id initial;
             cursor := cursor initial + 16; journal := journal initial |},
          inr t)
       /\ String.length t = 16
       /\ Forall (fun c => is_lower_hex c = true) (list_ascii_of_string t).
Proof.
  assert (supported_length 16) as H by (unfold supported_length; lia).
  split; [exact H|].
  exact (generateToken_length_and_digits counting_entropy 16 initial H).
Defined.

Lemma generateToken_even_same_token_witness :
  supported_length (2 * 8)
  /\ (snd (generateToken counting_entropy (2 * 8) initial)
      = snd (generateToken short_entropy (2 * 8) initial)
      <-> drawn counting_entropy (cursor initial) 8
          = drawn short_entropy (cursor initial) 8).
Proof.
  assert (supported_length (2 * 8)) as H by (unfold supported_length; lia).
  split; [exact H|].
  exact (generateToken_even_same_token counting_entropy short_entropy 8
           initial initial H).
Defined.

Lemma reachable_mail_has_user_witness :
  reachable counting_entropy sample_bcrypt transport_up registered
  /\ Call_sendAccountActivation (JStr "user1@example.com")
       (JStr "1011121314151617") ∈ journal registered
  /\ exists u, u ∈ table registered
               /\ Row.email u = JStr "user1@example.com".
Proof.
  assert (Call_sendAccountActivation (JStr "user1@example.com")
            (JStr "1011121314151617") ∈ journal registered) as Hcall by run.
  split; [exact registered_reachable|]. split; [exact Hcall|].
  exact (reachable_mail_has_user counting_entropy sample_bcrypt transport_up
           registered _ _ registered_reachable Hcall).
Defined.

